(** * A shallow embedding of image_scraper/pipelines.py

    The download pipeline [EnhancedImagePipeline] keeps a ledger
    [image_status] (a Python dict from URL to a per-image dict), a Pending
    Batch [new_images] (full paths of newly downloaded files), run counters
    [stats], and hands the batch to waifu2x at [close_spider].  Python
    values that come from or go to JSON are modelled by [json]; the ledger
    is a [gmap string pydict]. *)

From Stdlib Require Import ZArith QArith String Ascii.
From stdpp Require Import gmap strings list.

Open Scope string_scope.
#[local] Set Warnings "-register-all".

(** ** Python values *)

(** JSON values as the pipeline sees them after [json.load] and before
    [json.dump].  [JDict] holds the items of a Python dict in insertion
    order (keys distinct). *)
Inductive json :=
| JNull
| JBool (b : bool)
| JInt (z : Z)
| JStr (s : string)
| JList (l : list json)
| JDict (d : list (string * json)).

Abbreviation pydict := (list (string * json)).

(** [d.get(k)] *)
Fixpoint dict_get (d : pydict) (k : string) : option json :=
  match d with
  | [] => None
  | (k', v) :: d' => if String.eqb k k' then Some v else dict_get d' k
  end.

(** [d[k] = v]: an existing key keeps its position, a new key goes last. *)
Fixpoint dict_set (d : pydict) (k : string) (v : json) : pydict :=
  match d with
  | [] => [(k, v)]
  | (k', v') :: d' =>
      if String.eqb k k' then (k', v) :: d' else (k', v') :: dict_set d' k v
  end.

(** Python truthiness. *)
Definition truthy (v : json) : bool :=
  match v with
  | JNull => false
  | JBool b => b
  | JInt z => negb (Z.eqb z 0)
  | JStr s => negb (String.eqb s "")
  | JList l => negb (length l =? 0)%nat
  | JDict d => negb (length d =? 0)%nat
  end.

(** [bool(status.get(k))] *)
Definition get_truthy (d : pydict) (k : string) : bool :=
  match dict_get d k with
  | Some v => truthy v
  | None => false
  end.

(** ** String helpers (Python's [in], [os.path], [str.split]) *)

(** [needle in hay] *)
Fixpoint str_contains (needle hay : string) : bool :=
  String.prefix needle hay ||
  match hay with
  | EmptyString => false
  | String _ hay' => str_contains needle hay'
  end.

Definition slash : ascii := "/"%char.

Definition ends_with_slash (s : string) : bool :=
  match String.get (String.length s - 1) s with
  | Some c => Ascii.eqb c slash
  | None => false
  end.

(** [os.path.join(a, b)] (posixpath, two arguments). *)
Definition path_join (a b : string) : string :=
  if String.prefix "/" b then b
  else if String.eqb a "" || ends_with_slash a then a ++ b
  else a ++ "/" ++ b.

(** [os.path.basename(p)]: the part after the last slash. *)
Fixpoint basename_aux (s acc : string) : string :=
  match s with
  | EmptyString => acc
  | String c s' =>
      if Ascii.eqb c slash then basename_aux s' ""
      else basename_aux s' (acc ++ String c EmptyString)
  end.

Definition basename (p : string) : string := basename_aux p "".

(** [s.split('/')] *)
Fixpoint split_slash_aux (s acc : string) : list string :=
  match s with
  | EmptyString => [acc]
  | String c s' =>
      if Ascii.eqb c slash then acc :: split_slash_aux s' ""
      else split_slash_aux s' (acc ++ String c EmptyString)
  end.

Definition split_slash (s : string) : list string := split_slash_aux s "".

(** [url.split('/')[2] if '://' in url else 'unknown'] *)
Definition url_domain (url : string) : string :=
  if str_contains "://" url then nth 2 (split_slash url) "" else "unknown".

(** ** Pipeline state *)

Record run_stats := {
  downloaded : nat;
  enhanced : nat;
  failed : nat
}.

Record pipeline := {
  all_urls : gset string;
  image_status : gmap string pydict;
  previously_downloaded : gset string;
  new_images : list string;
  stats : run_stats
}.

Definition set_stats (st : pipeline) (s : run_stats) : pipeline :=
  {| all_urls := all_urls st; image_status := image_status st;
     previously_downloaded := previously_downloaded st;
     new_images := new_images st; stats := s |}.

Definition set_image_status (st : pipeline) (m : gmap string pydict) : pipeline :=
  {| all_urls := all_urls st; image_status := m;
     previously_downloaded := previously_downloaded st;
     new_images := new_images st; stats := stats st |}.

(** The environment of the download phase: [self.store.basedir], the
    wall clock string written as [download_time], and [os.path.getsize]
    ([None] when the file does not exist). *)
Record env := {
  basedir : string;
  clock : string;
  getsize : string -> option Z
}.

(** ** get_media_requests (lines 242-265)

    Returns the URLs for which a request is yielded, in order.  The rate
    limiter only paces the generator; it is modelled separately in
    [RateLimiter]. *)
Definition get_media_requests (st : pipeline) (urls : list string)
    : list string * pipeline :=
  let st' := {| all_urls := list_to_set urls ∪ all_urls st;
                image_status := image_status st;
                previously_downloaded := previously_downloaded st;
                new_images := new_images st; stats := stats st |} in
  (filter (fun url => image_status st !! url = None) urls, st').

(** ** item_completed (lines 308-347) *)

Inductive outcome :=
| Ok (url path : string)        (** [(True, {'url': url, 'path': path, ...})] *)
| Failed (reason : string).     (** [(False, failure)] *)

Definition skip_enhancement_domains : list string :=
  ["ticketsasa.com"; "admin.ticketsasa.com"].

(** The first loop: [skip_enhancement] becomes [True] at the first
    successful result whose URL contains an exempt domain ([break]). *)
Fixpoint skip_flag (results : list outcome) : bool :=
  match results with
  | [] => false
  | Ok url _ :: rs =>
      if existsb (fun domain => str_contains domain url) skip_enhancement_domains
      then true else skip_flag rs
  | Failed _ :: rs => skip_flag rs
  end.

Definition new_record (e : env) (url path : string) (skip : bool) : pydict :=
  let full_path := path_join (basedir e) path in
  [("downloaded", JBool true);
   ("enhanced", JBool skip);
   ("file_path", JStr path);
   ("download_time", JStr (clock e));
   ("filename", JStr (basename path));
   ("file_size", JInt (match getsize e full_path with Some z => z | None => 0%Z end));
   ("domain", JStr (url_domain url))].

(** One iteration of the second loop. *)
Definition complete_one (e : env) (skip : bool) (st : pipeline) (o : outcome)
    : pipeline :=
  match o with
  | Failed _ => st
  | Ok url path =>
      let full_path := path_join (basedir e) path in
      match image_status st !! url with
      | Some _ => st
      | None =>
          {| all_urls := all_urls st;
             image_status := <[url := new_record e url path skip]> (image_status st);
             previously_downloaded := previously_downloaded st;
             new_images := if skip then new_images st else new_images st ++ [full_path];
             stats := {| downloaded := S (downloaded (stats st));
                         enhanced := enhanced (stats st);
                         failed := failed (stats st) |} |}
      end
  end.

Definition item_completed (e : env) (st : pipeline) (results : list outcome)
    : pipeline :=
  fold_left (complete_one e (skip_flag results)) results st.

(** ** save_image_status (effective definition, lines 124-137) *)

(** The file written by [save_image_status] ([last_updated] left out). *)
Record ledger_file := {
  images : gmap string pydict;
  stats_total : nat;
  stats_enhanced : nat;
  stats_failed : nat
}.

(** [sum(1 for status in self.image_status.values() if status.get(k))] *)
Definition count_truthy (m : gmap string pydict) (k : string) : nat :=
  length (filter (fun status => get_truthy status k = true) (map snd (map_to_list m))).

Definition save_image_status (st : pipeline) : ledger_file :=
  {| images := image_status st;
     stats_total := size (image_status st);
     stats_enhanced := count_truthy (image_status st) "enhanced";
     stats_failed := count_truthy (image_status st) "failed" |}.

(** ** load_image_status (lines 108-122) *)

(** What [open] and [json.load] find at [image_status.json]. *)
Inductive status_file :=
| FileMissing                    (** [FileNotFoundError] *)
| FileReadError (exn : string)   (** any other [OSError] or [UnicodeDecodeError] *)
| FileNotJson                    (** [json.JSONDecodeError] *)
| FileJson (data : json).

Inductive load_log :=
| LogLoaded (total enhanced : nat)   (** "Loaded status for ... images (... enhanced)" *)
| LogNoPrevious.                     (** "No previous image status found" *)

Inductive load_result :=
| Loaded (m : gmap string pydict) (prev : gset string) (log : load_log)
| LoadRaised (exn : string).

Definition as_dict (v : json) : option pydict :=
  match v with JDict d => Some d | _ => None end.

(** [data.get('images', {})], then [.values()] and [status.get(...)] on
    every value: a non-dict anywhere on that path raises [AttributeError],
    which the [except] clause does not catch. *)
Definition load_image_status (f : status_file) : load_result :=
  match f with
  | FileMissing | FileNotJson => Loaded ∅ ∅ LogNoPrevious
  | FileReadError exn => LoadRaised exn
  | FileJson data =>
      match data with
      | JDict d =>
          let imgs := match dict_get d "images" with Some v => v | None => JDict [] end in
          match imgs with
          | JDict items =>
              match mapM (fun '(k, v) => (fun s => (k, s)) <$> as_dict v) items with
              | Some kvs =>
                  let m : gmap string pydict := list_to_map kvs in
                  Loaded m (dom m) (LogLoaded (size m) (count_truthy m "enhanced"))
              | None => LoadRaised "AttributeError"
              end
          | _ => LoadRaised "AttributeError"
          end
      | _ => LoadRaised "AttributeError"
      end
  end.

(** ** close_spider (lines 349-415) and the waifu2x helpers *)

(** What the file system and waifu2x do at the end of the run. *)
Record close_env := {
  image_exists : string -> bool;   (** [os.path.exists(image_path)] *)
  exe_exists : bool;               (** [os.path.exists(self.waifu2x_path)] *)
  copy_raises : string -> bool;    (** [shutil.copy2] raises for this file *)
  stale_input : list string;       (** input files [clean_waifu2x_folders] failed to remove *)
  tool_exit : option Z;            (** [process.returncode]; [None]: [Popen] raised *)
  elapsed : Q                      (** [runtime.total_seconds()] *)
}.

(** [copy_to_waifu2x] (lines 139-161): the boolean it returns. *)
Definition copy_to_waifu2x (ce : close_env) (image_path : string) : bool :=
  image_exists ce image_path && exe_exists ce && negb (copy_raises ce image_path).

(** [os.listdir(input_dir)] after cleaning and copying every batch file. *)
Definition input_listing (ce : close_env) (imgs : list string) : list string :=
  stale_input ce ++ map basename (filter (fun p => copy_to_waifu2x ce p = true) imgs).

(** [run_waifu2x] (lines 163-212): its result, and whether [Popen] is
    reached at all. *)
Definition run_waifu2x (ce : close_env) (listing : list string) : bool * bool :=
  match listing with
  | [] => (true, false)
  | _ :: _ =>
      (match tool_exit ce with Some 0%Z => true | _ => false end, true)
  end.

(** The body of the two reconciliation loops for one record:
    [status['enhanced'] = v] when its file is in the batch. *)
Definition reconcile_one (base : string) (imgs : list string) (v : bool)
    (status : pydict) : pydict :=
  match dict_get status "file_path" with
  | Some (JStr p) =>
      if decide (path_join base p ∈ imgs) then dict_set status "enhanced" (JBool v)
      else status
  | _ => status
  end.

(** [os.path.join(basedir, status['file_path'])] raises [TypeError] when
    the stored file_path is not a string. *)
Definition file_path_ok (status : pydict) : bool :=
  match dict_get status "file_path" with
  | None | Some (JStr _) => true
  | Some _ => false
  end.

Definition reconcile (base : string) (imgs : list string) (v : bool)
    (m : gmap string pydict) : option (gmap string pydict) :=
  if forallb (fun kv => file_path_ok kv.2) (map_to_list m)
  then Some (reconcile_one base imgs v <$> m) else None.

Record run_summary := {
  runtime : Q;
  total_urls : nat;
  sum_downloaded : nat;
  sum_enhanced : nat;
  sum_failed : nat;
  success_rate : Q;
  avg_time_per_image : Q
}.

Definition Q_of_nat (n : nat) : Q := inject_Z (Z.of_nat n).

Definition summary (ce : close_env) (st : pipeline) : run_summary :=
  let s := stats st in
  {| runtime := elapsed ce;
     total_urls := size (all_urls st);
     sum_downloaded := downloaded s;
     sum_enhanced := enhanced s;
     sum_failed := failed s;
     success_rate :=
       if (0 <? downloaded s)%nat
       then (Q_of_nat (enhanced s) / Q_of_nat (downloaded s) * 100)%Q else 0%Q;
     avg_time_per_image :=
       if (0 <? downloaded s)%nat then (elapsed ce / Q_of_nat (downloaded s))%Q else 0%Q |}.

Inductive close_result :=
| Raised (exn : string)
| Closed (final : pipeline) (saved : ledger_file) (sum : run_summary) (tool_invoked : bool).

Definition close_spider (ce : close_env) (e : env) (st : pipeline) : close_result :=
  let phase :=
    match new_images st with
    | [] => Some (st, false)
    | _ :: _ =>
        let '(ok, invoked) := run_waifu2x ce (input_listing ce (new_images st)) in
        let n := length (new_images st) in
        let s := stats st in
        let s' := if ok
                  then {| downloaded := downloaded s; enhanced := n; failed := failed s |}
                  else {| downloaded := downloaded s; enhanced := enhanced s; failed := n |} in
        match reconcile (basedir e) (new_images st) ok (image_status st) with
        | Some m => Some (set_image_status (set_stats st s') m, invoked)
        | None => None
        end
    end in
  match phase with
  | None => Raised "TypeError"
  | Some (st', invoked) => Closed st' (save_image_status st') (summary ce st') invoked
  end.

(** ** The class body (lines 41-415)

    Executing a class body binds each [def] name in the class namespace;
    a later [def] of the same name rebinds it.  Each method is identified
    by the line of its [def]. *)
Definition class_body : list (string * nat) :=
  [("save_image_status", 42%nat); ("__init__", 58%nat); ("from_settings", 103%nat);
   ("load_image_status", 108%nat); ("save_image_status", 124%nat);
   ("copy_to_waifu2x", 139%nat); ("run_waifu2x", 163%nat);
   ("clean_waifu2x_folders", 214%nat); ("get_media_requests", 242%nat);
   ("file_path", 267%nat); ("item_completed", 308%nat); ("close_spider", 349%nat)].

Definition class_namespace : gmap string nat :=
  fold_left (fun ns '(name, line) => <[name := line]> ns) class_body ∅.

(** ** A run

    [__init__] loads the ledger; then the framework calls
    [get_media_requests] and [item_completed] for its items, in any
    interleaving; then [close_spider]. *)
Definition init_pipeline (f : status_file) : option pipeline :=
  match load_image_status f with
  | Loaded m prev _ =>
      Some {| all_urls := ∅; image_status := m; previously_downloaded := prev;
              new_images := []; stats := {| downloaded := 0; enhanced := 0; failed := 0 |} |}
  | LoadRaised _ => None
  end.

Inductive event :=
| EvRequest (urls : list string)        (** [get_media_requests(item, info)] *)
| EvComplete (results : list outcome).  (** [item_completed(results, item, info)] *)

(** The download phase: the URLs requested, and the state it leaves. *)
Fixpoint download_phase (e : env) (st : pipeline) (evs : list event)
    : list string * pipeline :=
  match evs with
  | [] => ([], st)
  | EvRequest urls :: evs' =>
      let '(reqs, st1) := get_media_requests st urls in
      let '(reqs', st2) := download_phase e st1 evs' in
      ((reqs ++ reqs')%list, st2)
  | EvComplete results :: evs' => download_phase e (item_completed e st results) evs'
  end.

(** ** RateLimiter (lines 21-39) *)
Module RateLimiter.

(** [datetime] values and [timedelta]s are counted in microseconds. *)
Record t := {
  max_requests : Z;
  time_window : Z;      (** seconds *)
  requests : list Z     (** the deque, oldest first *)
}.

Definition usec (s : Z) : Z := s * 1000000.

(** The [while ... popleft()] loop. *)
Fixpoint clean_old (now w : Z) (q : list Z) : list Z :=
  match q with
  | t0 :: q' => if (now - t0 >? w)%Z then clean_old now w q' else q
  | [] => []
  end.

(** [wait_if_needed]: the moment the call returns (after [time.sleep])
    and the limiter afterwards; [None] when [self.requests[0]] raises. *)
Definition wait_if_needed (rl : t) (now : Z) : option (Z * t) :=
  let w := usec (time_window rl) in
  let q := clean_old now w (requests rl) in
  let rl' := {| max_requests := max_requests rl; time_window := time_window rl;
                requests := q ++ [now] |} in
  if (Z.of_nat (length q) >=? max_requests rl)%Z then
    match q with
    | [] => None
    | t0 :: _ =>
        let wait_time := (t0 + w - now)%Z in
        Some (if (wait_time >? 0)%Z then (now + wait_time)%Z else now, rl')
    end
  else Some (now, rl').

(** A caller that makes each call [g] microseconds after the previous
    call returned; the result lists the return (admission) times. *)
Fixpoint admissions (rl : t) (clock : Z) (gaps : list Z) : option (list Z) :=
  match gaps with
  | [] => Some []
  | g :: gs =>
      match wait_if_needed rl (clock + g) with
      | None => None
      | Some (ret, rl') => option_map (cons ret) (admissions rl' ret gs)
      end
  end.

(** [RateLimiter(max_requests=10, time_window=60)] *)
Definition init : t := {| max_requests := 10; time_window := 60; requests := [] |}.

(** Admissions in the trailing window [(hi - W, hi]]. *)
Definition count_in (lo hi : Z) (adm : list Z) : nat :=
  length (filter (fun a => (lo < a)%Z /\ (a <= hi)%Z) adm).

End RateLimiter.


(** A string with no slash in it. *)
Definition no_slash (s : string) : bool :=
  forallb (fun c => negb (Ascii.eqb c slash)) (list_ascii_of_string s).

(** ** The ledger file as [json.dump] writes it (lines 128-137)

    The items of the "images" object are listed in [map_to_list] order;
    Python writes them in insertion order, and the keys are distinct
    either way. *)
Definition ledger_json (lf : ledger_file) (last_updated : string) : json :=
  JDict [("images", JDict (map (fun kv => (kv.1, JDict kv.2)) (map_to_list (images lf))));
         ("last_updated", JStr last_updated);
         ("stats", JDict [("total", JInt (Z.of_nat (stats_total lf)));
                          ("enhanced", JInt (Z.of_nat (stats_enhanced lf)));
                          ("failed", JInt (Z.of_nat (stats_failed lf)))])].

(** ** ImageSpider.load_image_status (spiders/image_spider.py, lines 54-67)

    The spider reads the same file and keeps only [image_status.keys()];
    [None] when it raises. *)
Definition spider_load_image_status (f : status_file) : option (gset string) :=
  match f with
  | FileMissing | FileNotJson => Some ∅
  | FileReadError _ => None
  | FileJson (JDict d) =>
      match (match dict_get d "images" with Some v => v | None => JDict [] end) with
      | JDict items => Some (list_to_set (map fst items))
      | _ => None
      end
  | FileJson _ => None
  end.

(** ** Bookkeeping of a run *)

(** Every URL handed to [get_media_requests]. *)
Fixpoint event_urls (evs : list event) : list string :=
  match evs with
  | [] => []
  | EvRequest urls :: evs' => (urls ++ event_urls evs')%list
  | EvComplete _ :: evs' => event_urls evs'
  end.

Definition is_ok (o : outcome) : bool :=
  match o with Ok _ _ => true | Failed _ => false end.

(** ** file_path (lines 267-306)

    [urlparse(url).netloc] and [.path] are taken as inputs.  Paths are
    POSIX paths, and URLs are ASCII (the framework percent-encodes the
    rest), so [\w] is [[A-Za-z0-9_]]. *)

(** [s.split(c)] *)
Fixpoint split_char_aux (c : ascii) (s acc : string) : list string :=
  match s with
  | EmptyString => [acc]
  | String c' s' =>
      if Ascii.eqb c' c then acc :: split_char_aux c s' ""
      else split_char_aux c s' (acc ++ String c' EmptyString)
  end.

Definition split_char (c : ascii) (s : string) : list string := split_char_aux c s "".

(** [Path(p).name]: the last component that is neither empty nor ".". *)
Definition path_name (p : string) : string :=
  match last (filter (fun x => x <> "" /\ x <> ".") (split_slash p)) with
  | Some n => n
  | None => ""
  end.

(** [[p for p in path.split('/') if p]] *)
Definition path_parts (p : string) : list string :=
  filter (fun x => x <> "") (split_slash p).

Definition original_filename (path : string) : string :=
  let name := path_name path in
  if String.eqb name "" || negb (str_contains "." name) then
    match last (path_parts path) with
    | Some part => part ++ ".jpg"
    | None => "image.jpg"
    end
  else name.

Definition domain_prefix (domain : string) : string :=
  if str_contains "whats-on-mombasa.com" domain then "mombasa_"
  else if str_contains "ticketsasa.com" domain then "ticketsasa_"
  else hd "" (split_char "."%char domain) ++ "_".

Fixpoint string_map (f : ascii -> ascii) (s : string) : string :=
  match s with
  | EmptyString => EmptyString
  | String c s' => String (f c) (string_map f s')
  end.

Definition underscore : ascii := "_"%char.

(** The class of the first [re.sub]: the characters [<], [>], [:], the
    double quote, [/], the backslash, [|], [?] and [*]. *)
Definition forbidden_char (c : ascii) : bool :=
  existsb (Ascii.eqb c)
    ["<"%char; ">"%char; ":"%char; ascii_of_nat 34; "/"%char; "\"%char;
     "|"%char; "?"%char; "*"%char].

Definition in_range (lo hi : ascii) (c : ascii) : bool :=
  (nat_of_ascii lo <=? nat_of_ascii c)%nat && (nat_of_ascii c <=? nat_of_ascii hi)%nat.

(** The class [[\w\-_\.]]. *)
Definition allowed_char (c : ascii) : bool :=
  in_range "a"%char "z"%char c || in_range "A"%char "Z"%char c ||
  in_range "0"%char "9"%char c || Ascii.eqb c underscore ||
  Ascii.eqb c "-"%char || Ascii.eqb c "."%char.

(** The two [re.sub] calls. *)
Definition sanitize (s : string) : string :=
  string_map (fun c => if allowed_char c then c else underscore)
    (string_map (fun c => if forbidden_char c then underscore else c) s).

(** [s.rfind(c)] *)
Fixpoint rfind_aux (c : ascii) (s : string) (i : nat) (best : option nat) : option nat :=
  match s with
  | EmptyString => best
  | String c' s' => rfind_aux c s' (S i) (if Ascii.eqb c' c then Some i else best)
  end.

Definition rfind (c : ascii) (s : string) : option nat := rfind_aux c s 0 None.

(** [os.path.splitext(p)] (posixpath): the extension starts at the last
    dot after the last slash, unless only dots precede it in the base
    name. *)
Definition splitext (p : string) : string * string :=
  let start := match rfind slash p with Some i => S i | None => 0%nat end in
  match rfind "."%char p with
  | Some d =>
      if (start <=? d)%nat &&
         negb (forallb (Ascii.eqb "."%char) (list_ascii_of_string (substring start (d - start) p)))
      then (substring 0 d p, substring d (String.length p - d) p)
      else (p, "")
  | None => (p, "")
  end.

Definition final_filename (netloc path : string) : string :=
  let f := domain_prefix netloc ++ sanitize (original_filename path) in
  if (100 <? String.length f)%nat then
    let '(name_part, ext) := splitext f in substring 0 95 name_part ++ ext
  else f.

Definition file_path (netloc path : string) : string :=
  "full/" ++ final_filename netloc path.

(** ** Sample inputs *)

Definition env0 : env :=
  {| basedir := "image_scraper/downloaded_images"; clock := "2024-01-01 00:00:00,000";
     getsize := fun _ => Some 1000%Z |}.

Definition empty_pipeline : pipeline :=
  {| all_urls := ∅; image_status := ∅; previously_downloaded := ∅;
     new_images := []; stats := {| downloaded := 0; enhanced := 0; failed := 0 |} |}.

(** Every file is there, every copy works, waifu2x exits with [code]. *)
Definition close_env_exit (code : Z) : close_env :=
  {| image_exists := fun _ => true; exe_exists := true; copy_raises := fun _ => false;
     stale_input := []; tool_exit := Some code; elapsed := 30%Q |}.

(** [url] of the first successful result for [u], with its path. *)
Fixpoint first_ok_path (results : list outcome) (u : string) : option string :=
  match results with
  | [] => None
  | Ok url path :: rs => if String.eqb url u then Some path else first_ok_path rs u
  | Failed _ :: rs => first_ok_path rs u
  end.

(** The URLs of the successful results. *)
Fixpoint ok_urls (results : list outcome) : list string :=
  match results with
  | [] => []
  | Ok url _ :: rs => url :: ok_urls rs
  | Failed _ :: rs => ok_urls rs
  end.

(** * Lemmas about the download phase *)

Open Scope list_scope.

Section DownloadPhase.

Variable e : env.

Lemma complete_one_lookup_Some skip st o k r :
  image_status st !! k = Some r ->
  image_status (complete_one e skip st o) !! k = Some r.
Proof.
  intros Hk. destruct o as [url path|reason]; simpl; [|done].
  destruct (image_status st !! url) eqn:E; [done|]. simpl.
  rewrite lookup_insert_ne; [done|]. intros ->. congruence.
Qed.

Lemma fold_complete_lookup_Some skip rs st k r :
  image_status st !! k = Some r ->
  image_status (fold_left (complete_one e skip) rs st) !! k = Some r.
Proof.
  revert st. induction rs as [|o rs IH]; intros st Hk; simpl; [done|].
  apply IH, complete_one_lookup_Some, Hk.
Qed.

Lemma complete_one_new_images skip st o :
  exists l, new_images (complete_one e skip st o) = new_images st ++ l
            /\ (skip = true -> l = []).
Proof.
  destruct o as [url path|reason]; simpl; [|exists []; by rewrite app_nil_r].
  destruct (image_status st !! url); [exists []; by rewrite app_nil_r|]. simpl.
  destruct skip.
  - exists []. by rewrite app_nil_r.
  - eexists. split; [reflexivity|discriminate].
Qed.

Lemma fold_complete_new_images skip rs st :
  exists l, new_images (fold_left (complete_one e skip) rs st) = new_images st ++ l
            /\ (skip = true -> l = []).
Proof.
  revert st. induction rs as [|o rs IH]; intros st; simpl.
  - exists []. by rewrite app_nil_r.
  - destruct (complete_one_new_images skip st o) as (l1 & H1 & S1).
    destruct (IH (complete_one e skip st o)) as (l2 & H2 & S2).
    exists (l1 ++ l2). rewrite H2, H1, app_assoc. split; [done|].
    intros Hs. by rewrite S1, S2.
Qed.

(** The counters move with the ledger: each step that counts a download
    adds one fresh key, and stages at most one file. *)
Lemma complete_one_counts skip st o :
  let st' := complete_one e skip st o in
  (downloaded (stats st') + size (image_status st)
     = downloaded (stats st) + size (image_status st'))%nat /\
  (size (image_status st) <= size (image_status st'))%nat /\
  (length (new_images st') + size (image_status st)
     <= length (new_images st) + size (image_status st'))%nat.
Proof.
  destruct o as [url path|reason]; simpl; [|lia].
  destruct (image_status st !! url) eqn:E; simpl; [lia|].
  rewrite map_size_insert_None by done.
  destruct skip; simpl; rewrite ?length_app; simpl; lia.
Qed.

Lemma fold_complete_counts skip rs st :
  let st' := fold_left (complete_one e skip) rs st in
  (downloaded (stats st') + size (image_status st)
     = downloaded (stats st) + size (image_status st'))%nat /\
  (size (image_status st) <= size (image_status st'))%nat /\
  (length (new_images st') + size (image_status st)
     <= length (new_images st) + size (image_status st'))%nat.
Proof.
  revert st. induction rs as [|o rs IH]; intros st; simpl; [lia|].
  destruct (complete_one_counts skip st o) as (A1 & B1 & C1).
  destruct (IH (complete_one e skip st o)) as (A2 & B2 & C2).
  lia.
Qed.

Lemma fold_complete_new skip rs st u p :
  image_status st !! u = None ->
  first_ok_path rs u = Some p ->
  image_status (fold_left (complete_one e skip) rs st) !! u = Some (new_record e u p skip) /\
  (skip = false -> path_join (basedir e) p ∈ new_images (fold_left (complete_one e skip) rs st)).
Proof.
  revert st. induction rs as [|o rs IH]; intros st Hu Hp; simpl in *; [discriminate|].
  destruct o as [url path|reason]; [|by apply IH].
  destruct (String.eqb_spec url u) as [->|Hne].
  - injection Hp as <-. simpl. rewrite Hu. split.
    + apply fold_complete_lookup_Some. simpl. apply lookup_insert_eq.
    + intros ->.
      destruct (fold_complete_new_images false rs
        {| all_urls := all_urls st;
           image_status := <[u:=new_record e u path false]> (image_status st);
           previously_downloaded := previously_downloaded st;
           new_images := new_images st ++ [path_join (basedir e) path];
           stats := {| downloaded := S (downloaded (stats st));
                       enhanced := enhanced (stats st);
                       failed := failed (stats st) |} |}) as (l & Hl & _).
      rewrite Hl. simpl. set_solver.
  - apply IH; [|done]. simpl.
    destruct (image_status st !! url); [done|]. simpl.
    by rewrite lookup_insert_ne.
Qed.

Lemma skip_flag_spec rs :
  skip_flag rs = true <->
  exists u p, In (Ok u p) rs /\
    exists d, In d skip_enhancement_domains /\ str_contains d u = true.
Proof.
  induction rs as [|o rs IH]; cbn [skip_flag].
  - split; [discriminate|]. intros (u & p & [] & _).
  - destruct o as [url path|reason].
    + destruct (existsb (fun domain => str_contains domain url) skip_enhancement_domains) eqn:E.
      * split; [|intros; reflexivity]. intros _. exists url, path.
        split; [by left|]. by apply existsb_exists in E.
      * rewrite IH. split.
        -- intros (u & p & Hin & Hd). exists u, p. by split; [right|].
        -- intros (u & p & [Heq|Hin] & Hd).
           ++ injection Heq as <- <-. apply not_true_iff_false in E.
              exfalso. apply E, existsb_exists, Hd.
           ++ by exists u, p.
    + rewrite IH. split.
      * intros (u & p & Hin & Hd). exists u, p. by split; [right|].
      * intros (u & p & [Heq|Hin] & Hd); [discriminate|]. by exists u, p.
Qed.

(** The ledger keeps its records through the download phase; the keys
    grow, and every key requested was absent when requested. *)
Lemma download_phase_keeps evs st u r :
  image_status st !! u = Some r ->
  (u ∉ (download_phase e st evs).1) /\ image_status (download_phase e st evs).2 !! u = Some r.
Proof.
  revert st. induction evs as [|ev evs IH]; intros st Hu; simpl.
  - split; [set_solver|done].
  - destruct ev as [urls|results].
    + specialize (IH {| all_urls := list_to_set urls ∪ all_urls st;
                        image_status := image_status st;
                        previously_downloaded := previously_downloaded st;
                        new_images := new_images st; stats := stats st |} Hu).
      destruct (download_phase e _ evs) as [reqs' st2]. destruct IH as [IH1 IH2].
      simpl in *. split; [|done]. rewrite elem_of_app. intros [Hin|Hin]; [|done].
      apply list_elem_of_filter in Hin as [Hnone _]. congruence.
    + apply IH. by apply fold_complete_lookup_Some.
Qed.

Lemma download_phase_counts evs st :
  let st' := (download_phase e st evs).2 in
  (downloaded (stats st') + size (image_status st)
     = downloaded (stats st) + size (image_status st'))%nat /\
  (size (image_status st) <= size (image_status st'))%nat /\
  (length (new_images st') + size (image_status st)
     <= length (new_images st) + size (image_status st'))%nat.
Proof.
  revert st. induction evs as [|ev evs IH]; intros st; simpl; [lia|].
  destruct ev as [urls|results].
  - specialize (IH {| all_urls := list_to_set urls ∪ all_urls st;
                      image_status := image_status st;
                      previously_downloaded := previously_downloaded st;
                      new_images := new_images st; stats := stats st |}).
    destruct (download_phase e _ evs) as [reqs' st2] eqn:E. simpl in *. exact IH.
  - destruct (fold_complete_counts (skip_flag results) results st) as (A1 & B1 & C1).
    destruct (IH (item_completed e st results)) as (A2 & B2 & C2).
    unfold item_completed in *. lia.
Qed.

End DownloadPhase.

(** * Lemmas about reconciliation and saving *)

Lemma dict_get_set_eq (d : pydict) k v : dict_get (dict_set d k v) k = Some v.
Proof.
  induction d as [|[k' v'] d IH]; simpl.
  - by rewrite String.eqb_refl.
  - destruct (String.eqb_spec k k') as [->|Hne]; simpl.
    + by rewrite String.eqb_refl.
    + apply String.eqb_neq in Hne. by rewrite Hne.
Qed.

Lemma dict_get_set_ne (d : pydict) k k' v :
  k <> k' -> dict_get (dict_set d k v) k' = dict_get d k'.
Proof.
  intros Hne. induction d as [|[k0 v0] d IH]; simpl.
  - apply String.eqb_neq in Hne. rewrite String.eqb_sym, Hne. done.
  - destruct (String.eqb_spec k k0) as [->|Hne0]; simpl.
    + apply String.eqb_neq in Hne. rewrite String.eqb_sym in Hne. by rewrite Hne.
    + by rewrite IH.
Qed.

(** A record whose file is not in the batch is left as it is. *)
Lemma reconcile_one_outside base imgs v status :
  (forall p, dict_get status "file_path" = Some (JStr p) -> path_join base p ∉ imgs) ->
  reconcile_one base imgs v status = status.
Proof.
  intros H. unfold reconcile_one.
  destruct (dict_get status "file_path") as [[]|] eqn:E; try done.
  rewrite decide_False; [done|]. by apply H.
Qed.

Lemma reconcile_one_inside base imgs v status p :
  dict_get status "file_path" = Some (JStr p) -> path_join base p ∈ imgs ->
  dict_get (reconcile_one base imgs v status) "enhanced" = Some (JBool v).
Proof.
  intros Hp Hin. unfold reconcile_one. rewrite Hp, decide_True by done.
  apply dict_get_set_eq.
Qed.

(** Reconciliation never writes a [failed] key. *)
Lemma reconcile_one_failed base imgs v status :
  dict_get (reconcile_one base imgs v status) "failed" = dict_get status "failed".
Proof.
  unfold reconcile_one.
  destruct (dict_get status "file_path") as [[]|]; try done.
  case_decide; [|done]. by apply dict_get_set_ne.
Qed.

Lemma reconcile_lookup base imgs v m m' u :
  reconcile base imgs v m = Some m' ->
  m' !! u = reconcile_one base imgs v <$> m !! u.
Proof.
  unfold reconcile. destruct (forallb _ _); [|discriminate].
  intros [= <-]. apply lookup_fmap.
Qed.

Lemma close_spider_cases ce e st st2 sv sm inv :
  close_spider ce e st = Closed st2 sv sm inv ->
  sv = save_image_status st2 /\ sm = summary ce st2 /\
  ((new_images st = [] /\ st2 = st /\ inv = false) \/
   (new_images st <> [] /\
    exists m,
      reconcile (basedir e) (new_images st)
        (run_waifu2x ce (input_listing ce (new_images st))).1 (image_status st) = Some m /\
      image_status st2 = m /\ new_images st2 = new_images st /\
      inv = (run_waifu2x ce (input_listing ce (new_images st))).2 /\
      downloaded (stats st2) = downloaded (stats st) /\
      (if (run_waifu2x ce (input_listing ce (new_images st))).1
       then enhanced (stats st2) = length (new_images st) /\ failed (stats st2) = failed (stats st)
       else enhanced (stats st2) = enhanced (stats st) /\ failed (stats st2) = length (new_images st)))).
Proof.
  unfold close_spider. destruct (new_images st) as [|i imgs] eqn:Hn.
  - intros [= <- <- <- <-]. split; [done|]. split; [done|]. by left.
  - destruct (run_waifu2x ce (input_listing ce (i :: imgs))) as [ok invoked].
    destruct (reconcile (basedir e) (i :: imgs) ok (image_status st)) as [m|] eqn:Hr;
      [|discriminate].
    intros [= <- <- <- <-]. split; [done|]. split; [done|]. right.
    split; [done|]. exists m. simpl. rewrite Hn.
    repeat split; try done; destruct ok; done.
Qed.

Lemma length_filter_snd {A B} (P : B -> Prop) `{!forall x, Decision (P x)} (l : list (A * B)) :
  length (filter P (map snd l)) = length (filter (fun kv => P kv.2) l).
Proof.
  induction l as [|[a b] l IH]; [done|]. simpl. rewrite !filter_cons. simpl.
  case_decide; simpl; lia.
Qed.

Lemma count_truthy_size (m : gmap string pydict) k :
  count_truthy m k = size (filter (fun kv => get_truthy kv.2 k = true) m).
Proof.
  unfold count_truthy. rewrite length_filter_snd, map_filter_alt.
  rewrite map_size_list_to_map; [done|].
  apply (sublist_NoDup _ ((map_to_list m).*1)); [apply NoDup_fst_map_to_list|].
  apply fmap_sublist, sublist_filter.
Qed.

Lemma complete_one_dom e skip st o :
  dom (image_status (complete_one e skip st o)) = dom (image_status st) ∪ list_to_set (ok_urls [o]).
Proof.
  destruct o as [url path|reason]; simpl; [|set_solver].
  destruct (image_status st !! url) eqn:E; simpl.
  - apply (elem_of_dom_2 (D:=gset string)) in E. set_solver.
  - rewrite dom_insert_L. set_solver.
Qed.

Lemma fold_complete_dom e skip rs st :
  dom (image_status (fold_left (complete_one e skip) rs st))
    = dom (image_status st) ∪ list_to_set (ok_urls rs).
Proof.
  revert st. induction rs as [|o rs IH]; intros st; simpl; [set_solver|].
  rewrite IH, complete_one_dom.
  destruct o; simpl; set_solver.
Qed.

(** ** Concrete inputs *)

(** One item mixing an exempt and a non-exempt URL. *)
Definition mixed_item : list outcome :=
  [Ok "http://ticketsasa.com/a.jpg" "full/ticketsasa_a.jpg";
   Ok "http://example.com/b.jpg" "full/example_b.jpg"].

(** A ledger that already holds a record enhanced in an earlier run.
    [file_path] gives both [http://site.com/a/photo.jpg] and
    [http://site.com/b/photo.jpg] the path [full/site_photo.jpg]. *)
Definition old_url : string := "http://site.com/a/photo.jpg".
Definition new_url : string := "http://site.com/b/photo.jpg".

Definition old_record : pydict :=
  [("downloaded", JBool true); ("enhanced", JBool true);
   ("file_path", JStr "full/site_photo.jpg");
   ("download_time", JStr "2023-12-31 00:00:00,000");
   ("filename", JStr "site_photo.jpg"); ("file_size", JInt 1000);
   ("domain", JStr "site.com")].

Definition old_ledger : pipeline :=
  set_image_status empty_pipeline {[ old_url := old_record ]}.

Definition collision_run : list event :=
  [EvRequest [old_url; new_url];
   EvComplete [Ok new_url "full/site_photo.jpg"]].

(** A first run: three new images, requested then downloaded. *)
Definition url_A : string := "http://example.com/A.jpg".

Definition run3 : list event :=
  [EvRequest [url_A; "http://example.com/B.jpg"; "http://example.com/C.jpg"];
   EvComplete [Ok url_A "full/example_A.jpg";
               Ok "http://example.com/B.jpg" "full/example_B.jpg";
               Ok "http://example.com/C.jpg" "full/example_C.jpg"]].

(** A limiter for one request per minute that admitted a request at 0. *)
Definition limiter_full : RateLimiter.t :=
  {| RateLimiter.max_requests := 1; RateLimiter.time_window := 60;
     RateLimiter.requests := [0%Z] |}.

(** * Claims *)

(** C2 (corrected).  Exemption is decided once per item, not per
    identifier: [skip_flag] is true when any successful URL of the item
    contains an exempt domain, and then every new identifier of the item
    is recorded with enhanced=true and nothing is staged; otherwise each
    new identifier's full path is appended to the Pending Batch.  The
    record has downloaded=true, enhanced=<item exempt>, no failed key
    (reads as false) and the relative file_path. *)
Theorem C2_item_level_exemption (e : env) (st : pipeline) (results : list outcome) (u p : string) :
  image_status st !! u = None ->
  first_ok_path results u = Some p ->
  let st' := item_completed e st results in
  (exists r, image_status st' !! u = Some r /\
     dict_get r "downloaded" = Some (JBool true) /\
     dict_get r "enhanced" = Some (JBool (skip_flag results)) /\
     dict_get r "failed" = None /\
     dict_get r "file_path" = Some (JStr p)) /\
  (skip_flag results = true -> new_images st' = new_images st) /\
  (skip_flag results = false -> path_join (basedir e) p ∈ new_images st') /\
  (skip_flag results = true <->
     exists u' p', In (Ok u' p') results /\
       exists d, In d skip_enhancement_domains /\ str_contains d u' = true).
Proof.
  intros Hu Hp st'.
  destruct (fold_complete_new e (skip_flag results) results st u p Hu Hp) as [Hr Hin].
  split; [|split; [|split]].
  - exists (new_record e u p (skip_flag results)). split; [exact Hr|]. done.
  - intros Hs. unfold st', item_completed.
    destruct (fold_complete_new_images e (skip_flag results) results st) as (l & Hl & Hnil).
    rewrite Hl, Hnil by done. apply app_nil_r.
  - exact Hin.
  - apply skip_flag_spec.
Qed.

Lemma C2_witness :
  image_status empty_pipeline !! "http://example.com/b.jpg" = None /\
  first_ok_path mixed_item "http://example.com/b.jpg" = Some "full/example_b.jpg" /\
  let st' := item_completed env0 empty_pipeline mixed_item in
  (exists r, image_status st' !! "http://example.com/b.jpg" = Some r /\
     dict_get r "downloaded" = Some (JBool true) /\
     dict_get r "enhanced" = Some (JBool (skip_flag mixed_item)) /\
     dict_get r "failed" = None /\
     dict_get r "file_path" = Some (JStr "full/example_b.jpg")) /\
  (skip_flag mixed_item = true -> new_images st' = new_images empty_pipeline) /\
  (skip_flag mixed_item = false ->
     path_join (basedir env0) "full/example_b.jpg" ∈ new_images st') /\
  (skip_flag mixed_item = true <->
     exists u' p', In (Ok u' p') mixed_item /\
       exists d, In d skip_enhancement_domains /\ str_contains d u' = true).
Proof.
  split; [reflexivity|]. split; [reflexivity|].
  apply (C2_item_level_exemption env0 empty_pipeline mixed_item
           "http://example.com/b.jpg" "full/example_b.jpg"); reflexivity.
Defined.

(** C2 counterexample: [http://example.com/b.jpg] contains no exempt
    domain, yet in an item next to a ticketsasa.com URL it is recorded
    with enhanced=true and its file never enters the Pending Batch. *)
Lemma C2_counterexample :
  existsb (fun d => str_contains d "http://example.com/b.jpg") skip_enhancement_domains = false /\
  image_status empty_pipeline !! "http://example.com/b.jpg" = None /\
  (exists r, image_status (item_completed env0 empty_pipeline mixed_item)
               !! "http://example.com/b.jpg" = Some r /\
             dict_get r "enhanced" = Some (JBool true)) /\
  new_images (item_completed env0 empty_pipeline mixed_item) = [].
Proof.
  split; [reflexivity|]. split; [reflexivity|]. split; [|reflexivity].
  eexists. split; reflexivity.
Qed.

(** C4 (corrected).  For an identifier already in the ledger at the
    start of the run: no request is issued for it; the download phase
    keeps its record as it is; the downloaded counter grows exactly by the
    number of records added (so each identifier is counted at most once
    and known ones never), and files are staged only alongside added
    records.  At the end of the run its record is unchanged provided its
    stored file_path does not resolve to a Pending Batch path:
    reconciliation matches records by file path, not by identifier. *)
Theorem C4_known_identifier_untouched (e : env) (ce : close_env) (st0 : pipeline)
    (evs : list event) (u : string) (r : pydict) :
  image_status st0 !! u = Some r ->
  let st1 := (download_phase e st0 evs).2 in
  (u ∉ (download_phase e st0 evs).1) /\
  image_status st1 !! u = Some r /\
  (downloaded (stats st1) + size (image_status st0)
     = downloaded (stats st0) + size (image_status st1))%nat /\
  (length (new_images st1) + size (image_status st0)
     <= length (new_images st0) + size (image_status st1))%nat /\
  (forall st2 sv sm inv,
     close_spider ce e st1 = Closed st2 sv sm inv ->
     (forall p, dict_get r "file_path" = Some (JStr p) ->
                path_join (basedir e) p ∉ new_images st1) ->
     image_status st2 !! u = Some r).
Proof.
  intros Hu st1. subst st1.
  destruct (download_phase_keeps e evs st0 u r Hu) as [Hreq Hkeep].
  destruct (download_phase_counts e evs st0) as (Hc & _ & Hn).
  split; [exact Hreq|]. split; [exact Hkeep|]. split; [exact Hc|]. split; [exact Hn|].
  intros st2 sv sm inv Hclose Hout.
  destruct (close_spider_cases ce e _ st2 sv sm inv Hclose)
    as (_ & _ & [(_ & -> & _) | (_ & m & Hm & Hst2 & _)]); [exact Hkeep|].
  rewrite Hst2, (reconcile_lookup _ _ _ _ _ _ Hm), Hkeep. simpl.
  by rewrite reconcile_one_outside.
Qed.

Lemma C4_witness :
  image_status old_ledger !! new_url = None /\
  image_status old_ledger !! old_url = Some old_record /\
  let st1 := (download_phase env0 old_ledger collision_run).2 in
  (old_url ∉ (download_phase env0 old_ledger collision_run).1) /\
  image_status st1 !! old_url = Some old_record /\
  (downloaded (stats st1) + size (image_status old_ledger)
     = downloaded (stats old_ledger) + size (image_status st1))%nat /\
  (length (new_images st1) + size (image_status old_ledger)
     <= length (new_images old_ledger) + size (image_status st1))%nat /\
  (forall st2 sv sm inv,
     close_spider (close_env_exit 1) env0 st1 = Closed st2 sv sm inv ->
     (forall p, dict_get old_record "file_path" = Some (JStr p) ->
                path_join (basedir env0) p ∉ new_images st1) ->
     image_status st2 !! old_url = Some old_record).
Proof.
  split; [reflexivity|]. split; [reflexivity|].
  apply (C4_known_identifier_untouched env0 (close_env_exit 1) old_ledger collision_run
           old_url old_record).
  reflexivity.
Defined.

(** C4 counterexample: [old_url] is in the ledger with enhanced=true; a
    new URL with the same file path is downloaded and waifu2x exits 1;
    reconciliation sets the old record's enhanced to false. *)
Lemma C4_counterexample :
  image_status old_ledger !! old_url = Some old_record /\
  (old_url ∉ (download_phase env0 old_ledger collision_run).1) /\
  exists st2 sv sm inv,
    close_spider (close_env_exit 1) env0 (download_phase env0 old_ledger collision_run).2
      = Closed st2 sv sm inv /\
    image_status st2 !! old_url <> Some old_record /\
    option_map (fun r => dict_get r "enhanced") (image_status st2 !! old_url)
      = Some (Some (JBool false)).
Proof.
  split; [reflexivity|]. split; [vm_compute; set_solver|].
  do 4 eexists. split; [reflexivity|]. split.
  - vm_compute. discriminate.
  - vm_compute. reflexivity.
Qed.

(** C5 (confirmed).  The stats block written by the effective
    [save_image_status] counts the records at save time: total is the
    number of records, enhanced and failed are the numbers of records
    whose field is truthy, and the file depends on nothing but the
    records (not on the run counters). *)
Theorem C5_save_stats_recomputed (st : pipeline) :
  let f := save_image_status st in
  images f = image_status st /\
  stats_total f = size (image_status st) /\
  stats_enhanced f = size (filter (fun kv => get_truthy kv.2 "enhanced" = true) (image_status st)) /\
  stats_failed f = size (filter (fun kv => get_truthy kv.2 "failed" = true) (image_status st)) /\
  (forall st', image_status st' = image_status st -> save_image_status st' = f).
Proof.
  intros f. split; [done|]. split; [done|].
  split; [apply count_truthy_size|]. split; [apply count_truthy_size|].
  intros st' Heq. unfold f, save_image_status. by rewrite Heq.
Qed.

Lemma C5_witness :
  let f := save_image_status old_ledger in
  images f = image_status old_ledger /\
  stats_total f = size (image_status old_ledger) /\
  stats_enhanced f
    = size (filter (fun kv => get_truthy kv.2 "enhanced" = true) (image_status old_ledger)) /\
  stats_failed f
    = size (filter (fun kv => get_truthy kv.2 "failed" = true) (image_status old_ledger)) /\
  (forall st', image_status st' = image_status old_ledger -> save_image_status st' = f).
Proof. exact (C5_save_stats_recomputed old_ledger). Defined.

(** An item of three new non-exempt images, and a state whose Pending
    Batch could not be staged because the executable is missing. *)
Definition three_items : list outcome :=
  [Ok "http://example.com/A.jpg" "full/example_A.jpg";
   Ok "http://example.com/B.jpg" "full/example_B.jpg";
   Ok "http://example.com/C.jpg" "full/example_C.jpg"].

Definition three_new : pipeline := item_completed env0 empty_pipeline three_items.

Definition close_env_no_exe : close_env :=
  {| image_exists := fun _ => true; exe_exists := false; copy_raises := fun _ => false;
     stale_input := []; tool_exit := None; elapsed := 30%Q |}.

(** C9 (confirmed).  With a non-empty Pending Batch and an empty input
    directory, [run_waifu2x] returns [True] without reaching [Popen]; the
    enhanced counter becomes the batch size and every record whose file is
    in the batch gets enhanced=true. *)
Theorem C9_empty_staging_reports_success (ce : close_env) (e : env) (st : pipeline)
    st2 sv sm inv :
  new_images st <> [] ->
  input_listing ce (new_images st) = [] ->
  close_spider ce e st = Closed st2 sv sm inv ->
  inv = false /\
  enhanced (stats st2) = length (new_images st) /\
  (forall u r p,
     image_status st !! u = Some r ->
     dict_get r "file_path" = Some (JStr p) ->
     path_join (basedir e) p ∈ new_images st ->
     exists r', image_status st2 !! u = Some r' /\ dict_get r' "enhanced" = Some (JBool true)).
Proof.
  intros Hne Hempty Hclose.
  destruct (close_spider_cases ce e st st2 sv sm inv Hclose)
    as (_ & _ & [(Hnil & _) | (_ & m & Hm & Hst2 & _ & Hinv & _ & Hcnt)]); [done|].
  rewrite Hempty in Hm, Hinv, Hcnt. simpl in Hm, Hinv, Hcnt.
  split; [exact Hinv|]. split; [apply Hcnt|].
  intros u r p Hr Hp Hin.
  exists (reconcile_one (basedir e) (new_images st) true r). split.
  - by rewrite Hst2, (reconcile_lookup _ _ _ _ _ _ Hm), Hr.
  - by apply (reconcile_one_inside _ _ _ _ p).
Qed.

Lemma C9_witness :
  new_images three_new <> [] /\
  input_listing close_env_no_exe (new_images three_new) = [] /\
  exists st2 sv sm inv,
    close_spider close_env_no_exe env0 three_new = Closed st2 sv sm inv /\
    inv = false /\
    enhanced (stats st2) = length (new_images three_new) /\
    (forall u r p,
       image_status three_new !! u = Some r ->
       dict_get r "file_path" = Some (JStr p) ->
       path_join (basedir env0) p ∈ new_images three_new ->
       exists r', image_status st2 !! u = Some r' /\ dict_get r' "enhanced" = Some (JBool true)).
Proof.
  split; [vm_compute; discriminate|]. split; [reflexivity|].
  do 4 eexists. split; [reflexivity|].
  eapply (C9_empty_staging_reports_success close_env_no_exe env0 three_new);
    [vm_compute; discriminate | reflexivity | reflexivity].
Defined.

(** C10 (confirmed).  The class body binds [save_image_status] to the
    [def] at line 124, which rebinds the one at line 42; requests are
    issued exactly for the raw URLs absent from the ledger;
    [item_completed] adds the raw URLs of its successful results as keys;
    and the save writes the in-memory keys unchanged. *)
Theorem C10_raw_url_keys :
  class_namespace !! "save_image_status" = Some 124%nat /\
  (forall st urls,
     (get_media_requests st urls).1 = filter (fun url => image_status st !! url = None) urls) /\
  (forall e st results,
     dom (image_status (item_completed e st results))
       = dom (image_status st) ∪ list_to_set (ok_urls results)) /\
  (forall st, images (save_image_status st) = image_status st).
Proof.
  split; [reflexivity|]. split; [done|]. split; [|done].
  intros e st results. apply fold_complete_dom.
Qed.

(** One new non-exempt image. *)
Definition one_new : pipeline :=
  item_completed env0 empty_pipeline [Ok "http://example.com/a.jpg" "full/example_a.jpg"].

(** C1 (code_bug).  When waifu2x exits 1, the "Mark failed images" loop
    writes enhanced=False, which the new record already had; no failed
    key is ever written, so the record reads failed=false and the saved
    stats count 0 failed records while the run counter says 1. *)
Lemma C1_nonzero_exit_leaves_failed_unset :
  exists st2 sv sm inv,
    close_spider (close_env_exit 1) env0 one_new = Closed st2 sv sm inv /\
    inv = true /\ failed (stats st2) = 1%nat /\ stats_failed sv = 0%nat /\
    exists r, image_status st2 !! "http://example.com/a.jpg" = Some r /\
      dict_get r "failed" = None /\ get_truthy r "failed" = false /\
      dict_get r "enhanced" = Some (JBool false).
Proof.
  do 4 eexists. split; [reflexivity|].
  split; [reflexivity|]. split; [reflexivity|]. split; [reflexivity|].
  eexists. split; [reflexivity|]. split; [reflexivity|]. split; reflexivity.
Qed.

(** Copying [full/example_A.jpg] raises; the other two copies work. *)
Definition close_env_copy_fails : close_env :=
  {| image_exists := fun _ => true; exe_exists := true;
     copy_raises := fun p => String.eqb p (path_join (basedir env0) "full/example_A.jpg");
     stale_input := []; tool_exit := Some 0%Z; elapsed := 30%Q |}.

(** C7 (code_bug).  [copy_to_waifu2x] returns [False] for the file it
    could not stage, [close_spider] ignores the result, and after waifu2x
    exits 0 the unstaged file's record is marked enhanced=true and counted
    in the enhanced counter. *)
Lemma C7_unstaged_file_marked_enhanced :
  copy_to_waifu2x close_env_copy_fails (path_join (basedir env0) "full/example_A.jpg") = false /\
  exists st2 sv sm inv,
    close_spider close_env_copy_fails env0 three_new = Closed st2 sv sm inv /\
    inv = true /\ enhanced (stats st2) = 3%nat /\
    exists r, image_status st2 !! "http://example.com/A.jpg" = Some r /\
      dict_get r "enhanced" = Some (JBool true).
Proof.
  split; [reflexivity|].
  do 4 eexists. split; [reflexivity|].
  split; [reflexivity|]. split; [reflexivity|].
  eexists. split; reflexivity.
Qed.

(** Eleven back-to-back calls, one call a second later, nine more
    back-to-back. *)
Definition limiter_gaps : list Z :=
  repeat 0%Z 11 ++ [1000000%Z] ++ repeat 0%Z 9.

(** C3 (code_bug).  The eleventh call sleeps until second 60 but the
    deque records the moment it arrived (second 0), so at second 61 all
    eleven entries have aged out and ten more calls pass at once: eleven
    admissions fall in the one-second interval (60 s, 61 s], inside the
    60-second window ending at 61 s. *)
Lemma C3_eleven_admissions_in_window :
  RateLimiter.admissions RateLimiter.init 0 limiter_gaps
    = Some (repeat 0%Z 10 ++ [60000000%Z] ++ repeat 61000000%Z 10) /\
  RateLimiter.count_in (61000000 - RateLimiter.usec 60) 61000000
    (repeat 0%Z 10 ++ [60000000%Z] ++ repeat 61000000%Z 10) = 11%nat.
Proof. split; vm_compute; reflexivity. Qed.

Definition is_dict (v : json) : bool :=
  match v with JDict _ => true | _ => false end.

(** The JSON shapes [load_image_status] reads without raising: an object
    whose "images" entry, if present, is an object of objects. *)
Definition ledger_shaped (data : json) : bool :=
  match data with
  | JDict d =>
      match dict_get d "images" with
      | None => true
      | Some (JDict items) => forallb (fun kv => is_dict kv.2) items
      | Some _ => false
      end
  | _ => false
  end.

Lemma mapM_as_dict_None (items : pydict) :
  mapM (fun '(k, v) => (fun s => (k, s)) <$> as_dict v) items = None <->
  forallb (fun kv => is_dict kv.2) items = false.
Proof.
  induction items as [|[k v] items IH]; simpl; [split; discriminate|].
  destruct v; simpl; try (split; reflexivity).
  rewrite <- IH.
  destruct (mapM _ items); [split; intros H; discriminate H | done].
Qed.

(** C6 counterexample: a ledger file holding the valid JSON [[]] makes
    [data.get] raise [AttributeError], which is not caught. *)
Lemma C6_counterexample :
  load_image_status (FileJson (JList [])) = LoadRaised "AttributeError".
Proof. reflexivity. Qed.

(** C6 (corrected).  A missing file or content that is not valid JSON
    yields the empty ledger and the "No previous image status found" log;
    other read errors propagate; valid JSON raises exactly when it is not
    an object whose "images" entry (default empty) is an object of
    objects. *)
Theorem C6_load_fails_soft_on_missing_or_undecodable (data : json) (exn : string) :
  load_image_status FileMissing = Loaded ∅ ∅ LogNoPrevious /\
  load_image_status FileNotJson = Loaded ∅ ∅ LogNoPrevious /\
  load_image_status (FileReadError exn) = LoadRaised exn /\
  ((exists exn', load_image_status (FileJson data) = LoadRaised exn') <->
   ledger_shaped data = false).
Proof.
  split; [done|]. split; [done|]. split; [done|].
  destruct data as [| | | | |d]; simpl;
    try (split; [reflexivity|intros _; eexists; reflexivity]).
  destruct (dict_get d "images") as [[| | | | |items]|]; simpl;
    try (split; [reflexivity|intros _; eexists; reflexivity]).
  - destruct (mapM _ items) eqn:E.
    + split; [intros [? ?]; discriminate|].
      intros Hf. apply mapM_as_dict_None in Hf. congruence.
    + split; [intros _|intros _; eexists; reflexivity].
      by apply mapM_as_dict_None.
  - split; [intros [? ?]; discriminate|discriminate].
Qed.

Lemma C6_witness :
  load_image_status FileMissing = Loaded ∅ ∅ LogNoPrevious /\
  load_image_status FileNotJson = Loaded ∅ ∅ LogNoPrevious /\
  load_image_status (FileReadError "PermissionError") = LoadRaised "PermissionError" /\
  ((exists exn', load_image_status (FileJson (JList [])) = LoadRaised exn') <->
   ledger_shaped (JList []) = false).
Proof. exact (C6_load_fails_soft_on_missing_or_undecodable (JList []) "PermissionError"). Defined.

(** C8 counterexample: three new images enhanced by waifu2x give
    success_rate 100, not enhanced / downloaded = 1. *)
Lemma C8_counterexample :
  exists st2 sv sm inv,
    close_spider (close_env_exit 0) env0 three_new = Closed st2 sv sm inv /\
    sum_downloaded sm = 3%nat /\ sum_enhanced sm = 3%nat /\
    ~ (success_rate sm == Q_of_nat (sum_enhanced sm) / Q_of_nat (sum_downloaded sm))%Q.
Proof.
  do 4 eexists. split; [reflexivity|].
  split; [reflexivity|]. split; [reflexivity|].
  vm_compute. discriminate.
Qed.

(** C8 (corrected).  The summary reports the counters as they stand at
    the end of [close_spider]; success_rate is the percentage
    enhanced / downloaded * 100 (0 when nothing was downloaded), and
    avg_time_per_image is elapsed seconds / downloaded (0 when nothing was
    downloaded).  From an empty ledger, three new non-exempt downloads and
    exit 0 give downloaded=3, enhanced=3, failed=0, success_rate=100. *)
Theorem C8_summary_percentage (ce : close_env) (e : env) (st st2 : pipeline) sv sm inv :
  close_spider ce e st = Closed st2 sv sm inv ->
  (sum_downloaded sm = downloaded (stats st2) /\
   sum_enhanced sm = enhanced (stats st2) /\
   sum_failed sm = failed (stats st2) /\
   (success_rate sm ==
      if (0 <? downloaded (stats st2))%nat
      then Q_of_nat (enhanced (stats st2)) / Q_of_nat (downloaded (stats st2)) * 100
      else 0)%Q /\
   (avg_time_per_image sm ==
      if (0 <? downloaded (stats st2))%nat
      then elapsed ce / Q_of_nat (downloaded (stats st2))
      else 0)%Q) /\
  (exists st2' sv' sm' inv',
     close_spider (close_env_exit 0) env0 three_new = Closed st2' sv' sm' inv' /\
     image_status empty_pipeline = ∅ /\
     sum_downloaded sm' = 3%nat /\ sum_enhanced sm' = 3%nat /\ sum_failed sm' = 0%nat /\
     (success_rate sm' == 100)%Q).
Proof.
  intros Hclose.
  destruct (close_spider_cases ce e st st2 sv sm inv Hclose) as (_ & -> & _).
  split.
  - unfold summary. simpl.
    repeat split; destruct (0 <? downloaded (stats st2))%nat; reflexivity.
  - do 4 eexists. split; [reflexivity|].
    split; [reflexivity|]. split; [reflexivity|]. split; [reflexivity|].
    split; [reflexivity|]. vm_compute. reflexivity.
Qed.

Lemma C8_witness :
  exists (st2 : pipeline) (sv : ledger_file) (sm : run_summary) (inv : bool),
    close_spider (close_env_exit 0) env0 three_new = Closed st2 sv sm inv /\
    ((sum_downloaded sm = downloaded (stats st2) /\
      sum_enhanced sm = enhanced (stats st2) /\
      sum_failed sm = failed (stats st2) /\
      (success_rate sm ==
         if (0 <? downloaded (stats st2))%nat
         then Q_of_nat (enhanced (stats st2)) / Q_of_nat (downloaded (stats st2)) * 100
         else 0)%Q /\
      (avg_time_per_image sm ==
         if (0 <? downloaded (stats st2))%nat
         then elapsed (close_env_exit 0) / Q_of_nat (downloaded (stats st2))
         else 0)%Q) /\
     (exists st2' sv' sm' inv',
        close_spider (close_env_exit 0) env0 three_new = Closed st2' sv' sm' inv' /\
        image_status empty_pipeline = ∅ /\
        sum_downloaded sm' = 3%nat /\ sum_enhanced sm' = 3%nat /\ sum_failed sm' = 0%nat /\
        (success_rate sm' == 100)%Q)).
Proof.
  do 4 eexists. split; [reflexivity|].
  eapply (C8_summary_percentage (close_env_exit 0) env0 three_new).
  reflexivity.
Defined.

(** * Further properties of the pipeline *)

(** ** Helper lemmas *)

Lemma mapM_load_keys (items : pydict) kvs :
  mapM (fun '(k, v) => (fun s => (k, s)) <$> as_dict v) items = Some kvs ->
  kvs.*1 = items.*1.
Proof.
  revert kvs. induction items as [|[k v] items IH]; intros kvs H; simpl in H.
  - by injection H as <-.
  - destruct (as_dict v) as [d|]; simpl in H; [|discriminate].
    destruct (mapM _ items) as [kvs'|] eqn:E; simpl in H; [|discriminate].
    injection H as <-. simpl. f_equal. by apply IH.
Qed.

Lemma reconcile_dom base imgs v m m' :
  reconcile base imgs v m = Some m' -> dom m' = dom m.
Proof.
  unfold reconcile. destruct (forallb _ _); [|discriminate].
  intros [= <-]. apply dom_fmap_L.
Qed.

(** Reconciliation writes no field but [enhanced]. *)
Lemma reconcile_one_other base imgs v status k :
  k <> "enhanced" ->
  dict_get (reconcile_one base imgs v status) k = dict_get status k.
Proof.
  intros Hk. unfold reconcile_one.
  destruct (dict_get status "file_path") as [[]|]; try done.
  case_decide; [|done]. by apply dict_get_set_ne.
Qed.


Lemma close_spider_all_urls ce e st st2 sv sm inv :
  close_spider ce e st = Closed st2 sv sm inv -> all_urls st2 = all_urls st.
Proof.
  unfold close_spider. destruct (new_images st) as [|i imgs].
  - by intros [= <- _ _ _].
  - destruct (run_waifu2x _ _) as [ok invoked].
    destruct (reconcile _ _ _ _); [|discriminate]. by intros [= <- _ _ _].
Qed.

Lemma fold_complete_all_urls e skip rs st :
  all_urls (fold_left (complete_one e skip) rs st) = all_urls st.
Proof.
  revert st. induction rs as [|o rs IH]; intros st; simpl; [done|].
  rewrite IH. destruct o as [url path|]; simpl; [|done].
  by destruct (image_status st !! url).
Qed.

Lemma download_phase_all_urls e evs st :
  all_urls (download_phase e st evs).2 = list_to_set (event_urls evs) ∪ all_urls st.
Proof.
  revert st. induction evs as [|ev evs IH]; intros st; simpl; [set_solver|].
  destruct ev as [urls|results].
  - specialize (IH {| all_urls := list_to_set urls ∪ all_urls st;
                      image_status := image_status st;
                      previously_downloaded := previously_downloaded st;
                      new_images := new_images st; stats := stats st |}).
    destruct (download_phase e _ evs) as [reqs' st2]. simpl in *.
    rewrite IH, list_to_set_app_L. set_solver.
  - rewrite IH. unfold item_completed. rewrite fold_complete_all_urls. done.
Qed.

Lemma fold_complete_stats_ef e skip rs st :
  enhanced (stats (fold_left (complete_one e skip) rs st)) = enhanced (stats st) /\
  failed (stats (fold_left (complete_one e skip) rs st)) = failed (stats st).
Proof.
  revert st. induction rs as [|o rs IH]; intros st; simpl; [done|].
  rewrite !(proj1 (IH _)), !(proj2 (IH _)).
  destruct o as [url path|]; simpl; [|done].
  by destruct (image_status st !! url).
Qed.

Lemma download_phase_stats_ef e evs st :
  enhanced (stats (download_phase e st evs).2) = enhanced (stats st) /\
  failed (stats (download_phase e st evs).2) = failed (stats st).
Proof.
  revert st. induction evs as [|ev evs IH]; intros st; simpl; [done|].
  destruct ev as [urls|results].
  - specialize (IH {| all_urls := list_to_set urls ∪ all_urls st;
                      image_status := image_status st;
                      previously_downloaded := previously_downloaded st;
                      new_images := new_images st; stats := stats st |}).
    destruct (download_phase e _ evs) as [reqs' st2]. exact IH.
  - rewrite !(proj1 (IH _)), !(proj2 (IH _)). apply fold_complete_stats_ef.
Qed.

Lemma skip_flag_filter_ok rs : skip_flag (filter (fun o => is_ok o = true) rs) = skip_flag rs.
Proof.
  induction rs as [|[url path|reason] rs IH]; [done| |]; rewrite filter_cons; simpl.
  - by rewrite IH.
  - exact IH.
Qed.

Lemma fold_complete_filter_ok e skip rs st :
  fold_left (complete_one e skip) (filter (fun o => is_ok o = true) rs) st
  = fold_left (complete_one e skip) rs st.
Proof.
  revert st. induction rs as [|[url path|reason] rs IH]; intros st; [done| |];
    rewrite filter_cons; simpl; apply IH.
Qed.

Lemma load_ledger_json (st : pipeline) (last_updated : string) :
  load_image_status (FileJson (ledger_json (save_image_status st) last_updated)) =
  Loaded (image_status st) (dom (image_status st))
    (LogLoaded (stats_total (save_image_status st)) (stats_enhanced (save_image_status st))).
Proof.
  unfold load_image_status, ledger_json. cbn [dict_get images save_image_status].
  rewrite String.eqb_refl.
  change (map (fun kv : string * pydict => (kv.1, JDict kv.2)) (map_to_list (image_status st)))
    with ((fun kv : string * pydict => (kv.1, JDict kv.2)) <$> map_to_list (image_status st)).
  rewrite (mapM_fmap_Some _ (fun kv : string * pydict => (kv.1, JDict kv.2)));
    [|intros [k r]; reflexivity].
  rewrite list_to_map_to_list. reflexivity.
Qed.

Lemma close_spider_dom ce e st st2 sv sm inv :
  close_spider ce e st = Closed st2 sv sm inv ->
  dom (image_status st2) = dom (image_status st).
Proof.
  intros Hc.
  destruct (close_spider_cases _ _ _ _ _ _ _ Hc)
    as (_ & _ & [(_ & -> & _) | (_ & m & Hr & Hm & _)]); [done|].
  rewrite Hm. by eapply reconcile_dom.
Qed.

(** ** Saving and loading the ledger *)

(** X1.  Loading the file that [save_image_status] writes gives back the
    in-memory ledger, its key set as [previously_downloaded], and logs the
    saved [total] and [enhanced] counts. *)
Theorem X1_save_load_roundtrip (st : pipeline) (last_updated : string) :
  load_image_status (FileJson (ledger_json (save_image_status st) last_updated)) =
  Loaded (image_status st) (dom (image_status st))
    (LogLoaded (stats_total (save_image_status st)) (stats_enhanced (save_image_status st))).
Proof. apply load_ledger_json. Qed.

(** X2.  The spider's own loader reads the same key set as the pipeline's
    loader whenever the latter succeeds, and raises only when the
    pipeline's loader raises too. *)
Theorem X2_spider_loader_agrees (f : status_file) :
  (forall m prev log, load_image_status f = Loaded m prev log ->
     spider_load_image_status f = Some prev) /\
  (spider_load_image_status f = None -> exists exn, load_image_status f = LoadRaised exn).
Proof.
  split.
  - intros m prev log. destruct f as [| exn | | data]; simpl.
    + by intros [= _ <- _].
    + discriminate.
    + by intros [= _ <- _].
    + destruct data as [| | | | |d]; try discriminate.
      destruct (match dict_get d "images" with Some v => v | None => JDict [] end)
        as [| | | | |items]; try discriminate.
      destruct (mapM _ items) as [kvs|] eqn:E; [|discriminate].
      intros [= <- <- _]. f_equal.
      rewrite dom_list_to_map_L. f_equal. symmetry. by apply mapM_load_keys.
  - destruct f as [| exn | | data]; simpl; try discriminate.
    + intros _. by exists exn.
    + destruct data as [| | | | |d]; try (intros _; by eexists).
      destruct (match dict_get d "images" with Some v => v | None => JDict [] end)
        as [| | | | |items]; try (intros _; by eexists). discriminate.
Qed.

(** ** close_spider *)

(** X3.  [close_spider] neither adds nor removes ledger keys, and in each
    record it changes no field other than [enhanced]; [downloaded] and
    the set of seen URLs are left as they are. *)
Theorem X3_close_only_touches_enhanced (ce : close_env) (e : env) (st st2 : pipeline)
    sv sm inv :
  close_spider ce e st = Closed st2 sv sm inv ->
  dom (image_status st2) = dom (image_status st) /\
  (forall u r, image_status st !! u = Some r ->
     exists r', image_status st2 !! u = Some r' /\
       forall k, k <> "enhanced" -> dict_get r' k = dict_get r k) /\
  downloaded (stats st2) = downloaded (stats st) /\ all_urls st2 = all_urls st.
Proof.
  intros Hc. pose proof (close_spider_all_urls _ _ _ _ _ _ _ Hc) as Hall.
  destruct (close_spider_cases _ _ _ _ _ _ _ Hc)
    as (_ & _ & [(_ & -> & _) | (_ & m & Hr & Hm & _ & _ & Hd & _)]).
  - split; [done|]. split; [|done]. intros u r Hu. exists r. by split.
  - rewrite Hm. split; [by eapply reconcile_dom|]. split; [|by split].
    intros u r Hu. exists (reconcile_one (basedir e) (new_images st)
                             (run_waifu2x ce (input_listing ce (new_images st))).1 r).
    split.
    + rewrite (reconcile_lookup _ _ _ _ _ _ Hr), Hu. reflexivity.
    + intros k Hk. by apply reconcile_one_other.
Qed.


(** X5.  With a non-empty batch, [close_spider] writes the waifu2x result
    [v] into [enhanced] of exactly the records whose joined file path is
    in the batch, and leaves every other record unchanged. *)
Theorem X5_close_marks_exactly_batch (ce : close_env) (e : env) (st st2 : pipeline)
    sv sm inv u r :
  close_spider ce e st = Closed st2 sv sm inv ->
  new_images st <> [] ->
  image_status st !! u = Some r ->
  let v := (run_waifu2x ce (input_listing ce (new_images st))).1 in
  (forall p, dict_get r "file_path" = Some (JStr p) -> path_join (basedir e) p ∈ new_images st ->
     exists r', image_status st2 !! u = Some r' /\ dict_get r' "enhanced" = Some (JBool v)) /\
  ((forall p, dict_get r "file_path" = Some (JStr p) -> path_join (basedir e) p ∉ new_images st) ->
     image_status st2 !! u = Some r).
Proof.
  intros Hc Hne Hu v.
  destruct (close_spider_cases _ _ _ _ _ _ _ Hc)
    as (_ & _ & [(Hn & _) | (_ & m & Hr & Hm & _)]); [done|].
  rewrite Hm, (reconcile_lookup _ _ _ _ _ _ Hr), Hu. simpl. split.
  - intros p Hp Hin. eexists. split; [reflexivity|]. by eapply reconcile_one_inside.
  - intros Hout. f_equal. by apply reconcile_one_outside.
Qed.


(** ** Whole runs *)

(** X7.  A URL in the ledger when [close_spider] saves it is loaded as
    previously downloaded by the next run, and that run never requests
    it, whatever its download phase. *)
Theorem X7_saved_url_not_requested_next_run (ce : close_env) (e : env) (st st2 : pipeline)
    sv sm inv (last_updated : string) (e' : env) (evs : list event) (u : string) :
  close_spider ce e st = Closed st2 sv sm inv ->
  u ∈ dom (image_status st) ->
  exists st', init_pipeline (FileJson (ledger_json sv last_updated)) = Some st' /\
    u ∈ previously_downloaded st' /\ u ∉ (download_phase e' st' evs).1.
Proof.
  intros Hc Hu.
  destruct (close_spider_cases _ _ _ _ _ _ _ Hc) as (-> & _ & _).
  rewrite <- (close_spider_dom _ _ _ _ _ _ _ Hc) in Hu.
  unfold init_pipeline. rewrite load_ledger_json.
  eexists. split; [reflexivity|]. simpl. split; [done|].
  apply elem_of_dom in Hu as [r Hr].
  refine (proj1 (download_phase_keeps e' evs _ u r _)). exact Hr.
Qed.

(** X8.  In a run that starts from a loaded ledger, the summary never
    reports more enhanced or failed images than downloaded ones, so the
    success rate lies between 0 and 100. *)
Theorem X8_success_rate_bounded (f : status_file) (ce : close_env) (e : env)
    (evs : list event) (st0 st2 : pipeline) sv sm inv :
  init_pipeline f = Some st0 ->
  close_spider ce e (download_phase e st0 evs).2 = Closed st2 sv sm inv ->
  (sum_enhanced sm <= sum_downloaded sm)%nat /\ (sum_failed sm <= sum_downloaded sm)%nat /\
  (0 <= success_rate sm <= 100)%Q.
Proof.
  intros Hinit Hc.
  assert (H0 : new_images st0 = [] /\ downloaded (stats st0) = 0%nat /\
               enhanced (stats st0) = 0%nat /\ failed (stats st0) = 0%nat).
  { unfold init_pipeline in Hinit. destruct (load_image_status f); [|discriminate].
    by injection Hinit as <-. }
  destruct H0 as (Hn0 & Hd0 & He0 & Hf0).
  set (st1 := (download_phase e st0 evs).2) in *.
  destruct (download_phase_counts e evs st0) as (A & _ & C). fold st1 in A, C.
  destruct (download_phase_stats_ef e evs st0) as (He1 & Hf1). fold st1 in He1, Hf1.
  rewrite Hn0 in C. simpl in C.
  assert (Hlen : (length (new_images st1) <= downloaded (stats st1))%nat) by lia.
  assert (Hb : (enhanced (stats st2) <= downloaded (stats st2))%nat /\
               (failed (stats st2) <= downloaded (stats st2))%nat).
  { destruct (close_spider_cases _ _ _ _ _ _ _ Hc)
      as (_ & _ & [(_ & -> & _) | (_ & m & _ & _ & _ & _ & Hd & Hef)]); [lia|].
    rewrite Hd. destruct (run_waifu2x _ _).1; lia. }
  destruct (close_spider_cases _ _ _ _ _ _ _ Hc) as (_ & -> & _).
  unfold summary. cbn [sum_enhanced sum_downloaded sum_failed success_rate].
  split; [lia|]. split; [lia|].
  destruct (0 <? downloaded (stats st2))%nat eqn:Hpos; [|split; discriminate].
  apply Nat.ltb_lt in Hpos.
  assert (Hd : (0 < Q_of_nat (downloaded (stats st2)))%Q).
  { unfold Q_of_nat. change 0%Q with (inject_Z 0). rewrite <- Zlt_Qlt. lia. }
  assert (Hle : (Q_of_nat (enhanced (stats st2)) <= 1 * Q_of_nat (downloaded (stats st2)))%Q).
  { rewrite Qmult_1_l. unfold Q_of_nat. rewrite <- Zle_Qle. lia. }
  split.
  - apply Qmult_le_0_compat; [|discriminate].
    apply Qle_shift_div_l; [done|]. rewrite Qmult_0_l.
    unfold Q_of_nat. change 0%Q with (inject_Z 0). rewrite <- Zle_Qle. lia.
  - rewrite <- (Qmult_1_l 100) at 2. apply Qmult_le_compat_r; [|discriminate].
    by apply Qle_shift_div_r.
Qed.

(** X9.  The [total_urls] of the summary of a run counts the distinct
    URLs handed to [get_media_requests], including those skipped because
    they were already in the ledger. *)
Theorem X9_total_urls_counts_all_seen (f : status_file) (ce : close_env) (e : env)
    (evs : list event) (st0 st2 : pipeline) sv sm inv :
  init_pipeline f = Some st0 ->
  close_spider ce e (download_phase e st0 evs).2 = Closed st2 sv sm inv ->
  total_urls sm = size (list_to_set (event_urls evs) : gset string).
Proof.
  intros Hinit Hc.
  assert (Ha : all_urls st0 = ∅).
  { unfold init_pipeline in Hinit. destruct (load_image_status f); [|discriminate].
    by injection Hinit as <-. }
  destruct (close_spider_cases _ _ _ _ _ _ _ Hc) as (_ & -> & _).
  unfold summary. cbn [total_urls].
  rewrite (close_spider_all_urls _ _ _ _ _ _ _ Hc), download_phase_all_urls, Ha.
  by rewrite union_empty_r_L.
Qed.

(** X10.  [item_completed] ignores failed download results: dropping
    them from [results] changes nothing, neither the exemption flag nor
    the ledger, batch or counters. *)
Theorem X10_failed_results_ignored (e : env) (st : pipeline) (results : list outcome) :
  item_completed e st (filter (fun o => is_ok o = true) results) = item_completed e st results.
Proof.
  unfold item_completed. rewrite skip_flag_filter_ok. apply fold_complete_filter_ok.
Qed.

(** ** The rate limiter *)

Lemma clean_old_suffix now w q : exists pre, q = pre ++ RateLimiter.clean_old now w q.
Proof.
  induction q as [|t0 q IH]; simpl; [by exists []|].
  destruct (now - t0 >? w)%Z.
  - destruct IH as [pre Hpre]. exists (t0 :: pre). simpl. by f_equal.
  - by exists [].
Qed.


(** X11.  If every timestamp in the deque lies at or before the call,
    [wait_if_needed] returns no earlier than the call and at most one
    window later, and afterwards every timestamp in the deque lies at or
    before its return: no call waits longer than the window, and the
    precondition holds again for the next call. *)
Theorem X11_limiter_wait_bounded (rl : RateLimiter.t) (now ret : Z) (rl' : RateLimiter.t) :
  (0 <= RateLimiter.time_window rl)%Z ->
  Forall (fun t0 => t0 <= now)%Z (RateLimiter.requests rl) ->
  RateLimiter.wait_if_needed rl now = Some (ret, rl') ->
  (now <= ret <= now + RateLimiter.usec (RateLimiter.time_window rl))%Z /\
  Forall (fun t0 => t0 <= ret)%Z (RateLimiter.requests rl') /\
  RateLimiter.max_requests rl' = RateLimiter.max_requests rl /\
  RateLimiter.time_window rl' = RateLimiter.time_window rl.
Proof.
  intros Hw Hall. unfold RateLimiter.wait_if_needed.
  set (w := RateLimiter.usec (RateLimiter.time_window rl)).
  assert (Hw' : (0 <= w)%Z) by (unfold w, RateLimiter.usec; lia).
  set (q := RateLimiter.clean_old now w (RateLimiter.requests rl)).
  assert (Hq : Forall (fun t0 => t0 <= now)%Z q).
  { destruct (clean_old_suffix now w (RateLimiter.requests rl)) as [pre Hpre].
    fold q in Hpre. rewrite Hpre in Hall. by apply Forall_app in Hall as [_ ?]. }
  assert (Hext : forall r, (now <= r)%Z ->
            Forall (fun t0 => t0 <= r)%Z (q ++ [now])).
  { intros r Hr. apply Forall_app. split; [|by constructor; [lia|]].
    eapply Forall_impl; [exact Hq|]. simpl. lia. }
  destruct (Z.of_nat (length q) >=? RateLimiter.max_requests rl)%Z.
  - destruct q as [|t0 q'] eqn:Eq; [discriminate|].
    inversion Hq as [|? ? Ht0 _]; subst.
    destruct (t0 + w - now >? 0)%Z eqn:Ew; intros [= <- <-]; cbn.
    + apply Z.gtb_lt in Ew. repeat split; try lia. apply Hext. lia.
    + repeat split; try lia. apply Hext. lia.
  - intros [= <- <-]. cbn. repeat split; try lia. apply Hext. lia.
Qed.



(** ** Strings: [url_domain], [basename] and [file_path] *)

Lemma str_app_nil_l (t : string) : ("" ++ t)%string = t.
Proof. reflexivity. Qed.

Lemma str_app_cons (c : ascii) (s t : string) : (String c s ++ t)%string = String c (s ++ t).
Proof. reflexivity. Qed.

Lemma str_app_nil_r (s : string) : (s ++ "")%string = s.
Proof. induction s as [|c s IH]; [done|]. by rewrite str_app_cons, IH. Qed.

Lemma str_app_assoc (a b c : string) : ((a ++ b) ++ c)%string = (a ++ (b ++ c))%string.
Proof. induction a as [|x a IH]; [done|]. by rewrite !str_app_cons, IH. Qed.

Lemma str_length_app (a b : string) :
  String.length (a ++ b) = (String.length a + String.length b)%nat.
Proof. induction a as [|x a IH]; [done|]. rewrite str_app_cons. simpl. by rewrite IH. Qed.

Lemma substring_length_le n m s : (String.length (substring n m s) <= m)%nat.
Proof.
  revert n m. induction s as [|c s IH]; intros [|n] [|m]; simpl; try lia.
  - specialize (IH 0%nat m). lia.
  - apply IH.
  - apply IH.
Qed.

Lemma no_slash_cons c s :
  no_slash (String c s) = negb (Ascii.eqb c slash) && no_slash s.
Proof. reflexivity. Qed.

Lemma split_slash_aux_noslash s r acc :
  no_slash s = true -> split_slash_aux (s ++ r) acc = split_slash_aux r (acc ++ s).
Proof.
  revert acc. induction s as [|c s IH]; intros acc Hs.
  - by rewrite str_app_nil_l, str_app_nil_r.
  - rewrite no_slash_cons in Hs. apply andb_prop in Hs as [Hc Hs].
    rewrite str_app_cons. simpl. apply negb_true_iff in Hc. rewrite Hc.
    rewrite IH by done. by rewrite str_app_assoc.
Qed.

Lemma split_slash_aux_last d n acc :
  no_slash n = true -> exists l, split_slash_aux (d ++ String slash n) acc = l ++ [n].
Proof.
  revert acc. induction d as [|c d IH]; intros acc Hn.
  - exists [acc]. rewrite str_app_nil_l. simpl.
    rewrite <- (str_app_nil_r n) at 1. rewrite split_slash_aux_noslash by done.
    reflexivity.
  - rewrite str_app_cons. simpl. destruct (Ascii.eqb c slash).
    + destruct (IH "" Hn) as [l Hl]. rewrite Hl. by exists (acc :: l).
    + apply IH, Hn.
Qed.

Lemma str_prefix_app (n b : string) : String.prefix n (n ++ b) = true.
Proof.
  induction n as [|c n IH]; [by destruct b|]. rewrite str_app_cons. simpl.
  destruct (ascii_dec c c); [done|contradiction].
Qed.

Lemma str_contains_app (n a b : string) : str_contains n (a ++ n ++ b) = true.
Proof.
  induction a as [|c a IH].
  - rewrite str_app_nil_l. pose proof (str_prefix_app n b) as Hp.
    revert Hp. destruct (n ++ b)%string; simpl; by intros ->.
  - rewrite str_app_cons. simpl. rewrite IH. apply orb_true_r.
Qed.

Lemma basename_aux_noslash n acc : no_slash n = true -> basename_aux n acc = (acc ++ n)%string.
Proof.
  revert acc. induction n as [|c n IH]; intros acc Hn; simpl.
  - by rewrite str_app_nil_r.
  - rewrite no_slash_cons in Hn. apply andb_prop in Hn as [Hc Hn].
    apply negb_true_iff in Hc. rewrite Hc, IH by done. by rewrite str_app_assoc.
Qed.

Lemma basename_aux_last d n acc :
  no_slash n = true -> basename_aux (d ++ String slash n) acc = n.
Proof.
  revert acc. induction d as [|c d IH]; intros acc Hn.
  - rewrite str_app_nil_l. simpl. by rewrite basename_aux_noslash.
  - rewrite str_app_cons. simpl. destruct (Ascii.eqb c slash); by apply IH.
Qed.

Lemma path_name_last d n :
  no_slash n = true -> n <> "" -> n <> "." -> path_name (d ++ "/" ++ n) = n.
Proof.
  intros Hs H1 H2. unfold path_name, split_slash.
  change ("/" ++ n)%string with (String slash n).
  destruct (split_slash_aux_last d n "" Hs) as [l ->].
  rewrite filter_app, filter_cons_True by done. rewrite filter_nil. by rewrite last_snoc.
Qed.

(** Every character the second [re.sub] lets through is left alone by
    the first. *)
Lemma allowed_not_forbidden c : allowed_char c = true -> forbidden_char c = false.
Proof.
  destruct c as [[] [] [] [] [] [] [] []]; intros H; vm_compute in H; vm_compute; congruence.
Qed.

(** X14.  For a URL [scheme://host] followed by nothing or by a path
    starting with a slash, the [domain] field of a new record is the host
    (with its port, if any). *)
Theorem X14_url_domain_is_host (scheme host rest : string) :
  no_slash scheme = true -> no_slash host = true ->
  (rest = "" \/ exists r, rest = ("/" ++ r)%string) ->
  url_domain (scheme ++ "://" ++ host ++ rest) = host.
Proof.
  intros Hs Hh Hr. unfold url_domain.
  rewrite str_contains_app.
  change ("://" ++ host ++ rest)%string
    with (String ":"%char (String slash (String slash (host ++ rest)))).
  unfold split_slash. rewrite split_slash_aux_noslash by done. simpl.
  rewrite split_slash_aux_noslash by done. rewrite str_app_nil_l.
  destruct Hr as [-> | [r ->]]; reflexivity.
Qed.

(** X15.  The [filename] field of a new record is the last component of
    the stored path: [basename] of [d/n] is [n] when [n] has no slash. *)
Theorem X15_basename_last_component (d n : string) :
  no_slash n = true -> basename (d ++ "/" ++ n) = n.
Proof.
  intros Hn. unfold basename. change ("/" ++ n)%string with (String slash n).
  by apply basename_aux_last.
Qed.

(** X16.  [file_path] keeps only the last path component of the URL: two
    URLs on the same host whose paths end in the same file name with a
    dot get the same stored path, whatever their directories. *)
Theorem X16_file_path_drops_directories (netloc d1 d2 n : string) :
  no_slash n = true -> n <> "." -> str_contains "." n = true ->
  file_path netloc (d1 ++ "/" ++ n) = file_path netloc (d2 ++ "/" ++ n).
Proof.
  intros Hs Hdot Hc.
  assert (Hne : n <> "") by (intros ->; discriminate).
  unfold file_path, final_filename, original_filename.
  rewrite !path_name_last by done.
  apply String.eqb_neq in Hne. by rewrite Hne, Hc.
Qed.

(** X17.  The sanitised file name has the length of the original, uses
    only letters, digits, [_], [-] and [.], and a name that already uses
    only those characters is left unchanged. *)
Theorem X17_sanitize_output (s : string) :
  String.length (sanitize s) = String.length s /\
  forallb allowed_char (list_ascii_of_string (sanitize s)) = true /\
  (forallb allowed_char (list_ascii_of_string s) = true -> sanitize s = s).
Proof.
  unfold sanitize. induction s as [|c s (IH1 & IH2 & IH3)]; [done|]. simpl.
  split; [by rewrite IH1|]. split.
  - rewrite IH2, andb_true_r.
    destruct (allowed_char (if forbidden_char c then underscore else c)) eqn:E;
      [exact E|reflexivity].
  - intros [Hc Hs]%andb_prop. rewrite (allowed_not_forbidden c Hc), Hc. by rewrite IH3.
Qed.

(** X18.  The final file name has at most 100 characters, or else at
    most 95 plus the length of the extension [os.path.splitext] finds in
    the combined name. *)
Theorem X18_final_filename_length (netloc path : string) :
  (String.length (final_filename netloc path) <=
   Nat.max 100
     (95 + String.length
             (splitext (domain_prefix netloc ++ sanitize (original_filename path))).2))%nat.
Proof.
  unfold final_filename.
  set (f := (domain_prefix netloc ++ sanitize (original_filename path))%string).
  destruct (100 <? String.length f)%nat eqn:E.
  - destruct (splitext f) as [np ext]. simpl. rewrite str_length_app.
    pose proof (substring_length_le 0 95 np). lia.
  - apply Nat.ltb_ge in E. lia.
Qed.

(** ** Witnesses *)

Lemma X2_witness :
  load_image_status (FileJson (ledger_json (save_image_status three_new) "now")) =
    Loaded (image_status three_new) (dom (image_status three_new))
      (LogLoaded 3 0) /\
  spider_load_image_status (FileJson (ledger_json (save_image_status three_new) "now")) =
    Some (dom (image_status three_new)).
Proof.
  split; [vm_compute; reflexivity|].
  apply (proj1 (X2_spider_loader_agrees _) (image_status three_new) _ (LogLoaded 3 0)).
  vm_compute. reflexivity.
Defined.

Lemma X3_witness :
  exists st2 sv sm inv,
    close_spider (close_env_exit 0) env0 three_new = Closed st2 sv sm inv /\
    dom (image_status st2) = dom (image_status three_new) /\
    (forall u r, image_status three_new !! u = Some r ->
       exists r', image_status st2 !! u = Some r' /\
         forall k, k <> "enhanced" -> dict_get r' k = dict_get r k) /\
    downloaded (stats st2) = downloaded (stats three_new) /\
    all_urls st2 = all_urls three_new.
Proof.
  do 4 eexists. split; [reflexivity|].
  eapply (X3_close_only_touches_enhanced (close_env_exit 0) env0 three_new). reflexivity.
Defined.


Lemma X5_witness :
  exists st2 sv sm inv,
    close_spider (close_env_exit 0) env0 three_new = Closed st2 sv sm inv /\
    new_images three_new <> [] /\
    image_status three_new !! url_A = Some (new_record env0 url_A "full/example_A.jpg" false) /\
    let v := (run_waifu2x (close_env_exit 0) (input_listing (close_env_exit 0) (new_images three_new))).1 in
    (forall p, dict_get (new_record env0 url_A "full/example_A.jpg" false) "file_path" = Some (JStr p) ->
       path_join (basedir env0) p ∈ new_images three_new ->
       exists r', image_status st2 !! url_A = Some r' /\ dict_get r' "enhanced" = Some (JBool v)) /\
    ((forall p, dict_get (new_record env0 url_A "full/example_A.jpg" false) "file_path" = Some (JStr p) ->
        path_join (basedir env0) p ∉ new_images three_new) ->
     image_status st2 !! url_A = Some (new_record env0 url_A "full/example_A.jpg" false)).
Proof.
  do 4 eexists. split; [reflexivity|].
  split; [vm_compute; discriminate|]. split; [reflexivity|].
  eapply (X5_close_marks_exactly_batch (close_env_exit 0) env0 three_new); [reflexivity|vm_compute; discriminate|reflexivity].
Defined.

Lemma X7_witness :
  exists st2 sv sm inv st',
    close_spider (close_env_exit 0) env0 three_new = Closed st2 sv sm inv /\
    url_A ∈ dom (image_status three_new) /\
    init_pipeline (FileJson (ledger_json sv "now")) = Some st' /\
    url_A ∈ previously_downloaded st' /\ url_A ∉ (download_phase env0 st' run3).1.
Proof.
  assert (Hu : url_A ∈ dom (image_status three_new)).
  { apply elem_of_dom. vm_compute. eexists. reflexivity. }
  edestruct (X7_saved_url_not_requested_next_run (close_env_exit 0) env0 three_new)
    with (last_updated := "now") (e' := env0) (evs := run3) (u := url_A)
    as (st' & H1 & H2 & H3); [reflexivity|exact Hu|].
  eexists _, _, _, _, st'. split; [reflexivity|].
  split; [exact Hu|]. split; [exact H1|]. split; [exact H2|exact H3].
Defined.

Lemma X8_witness :
  exists st0 st2 sv sm inv,
    init_pipeline FileMissing = Some st0 /\
    close_spider (close_env_exit 0) env0 (download_phase env0 st0 run3).2 = Closed st2 sv sm inv /\
    (sum_enhanced sm <= sum_downloaded sm)%nat /\ (sum_failed sm <= sum_downloaded sm)%nat /\
    (0 <= success_rate sm <= 100)%Q.
Proof.
  do 5 eexists. split; [reflexivity|]. split; [reflexivity|].
  eapply (X8_success_rate_bounded FileMissing (close_env_exit 0) env0 run3); reflexivity.
Defined.

Lemma X9_witness :
  exists st0 st2 sv sm inv,
    init_pipeline FileMissing = Some st0 /\
    close_spider (close_env_exit 0) env0 (download_phase env0 st0 run3).2 = Closed st2 sv sm inv /\
    total_urls sm = size (list_to_set (event_urls run3) : gset string).
Proof.
  do 5 eexists. split; [reflexivity|]. split; [reflexivity|].
  eapply (X9_total_urls_counts_all_seen FileMissing (close_env_exit 0) env0 run3); reflexivity.
Defined.

Lemma X11_witness :
  exists ret rl',
    (0 <= RateLimiter.time_window limiter_full)%Z /\
    Forall (fun t0 => t0 <= 10000000)%Z (RateLimiter.requests limiter_full) /\
    RateLimiter.wait_if_needed limiter_full 10000000 = Some (ret, rl') /\
    (10000000 <= ret <= 10000000 + RateLimiter.usec (RateLimiter.time_window limiter_full))%Z /\
    Forall (fun t0 => t0 <= ret)%Z (RateLimiter.requests rl') /\
    RateLimiter.max_requests rl' = RateLimiter.max_requests limiter_full /\
    RateLimiter.time_window rl' = RateLimiter.time_window limiter_full.
Proof.
  do 2 eexists.
  assert (Hw : (0 <= RateLimiter.time_window limiter_full)%Z) by (simpl; lia).
  assert (Hq : Forall (fun t0 => t0 <= 10000000)%Z (RateLimiter.requests limiter_full))
    by (simpl; constructor; [lia|constructor]).
  split; [exact Hw|]. split; [exact Hq|]. split; [reflexivity|].
  eapply X11_limiter_wait_bounded; [exact Hw|exact Hq|reflexivity].
Defined.


Lemma X14_witness :
  no_slash "https" = true /\ no_slash "site.com:8080" = true /\
  ("/img/a.jpg" = "" \/ exists r, "/img/a.jpg" = ("/" ++ r)%string) /\
  url_domain ("https" ++ "://" ++ "site.com:8080" ++ "/img/a.jpg") = "site.com:8080".
Proof.
  assert (H : "/img/a.jpg" = "" \/ exists r, "/img/a.jpg" = ("/" ++ r)%string)
    by (right; exists "img/a.jpg"; reflexivity).
  split; [reflexivity|]. split; [reflexivity|]. split; [exact H|].
  apply X14_url_domain_is_host; [reflexivity|reflexivity|exact H].
Defined.

Lemma X15_witness :
  no_slash "site_photo.jpg" = true /\
  basename ("full" ++ "/" ++ "site_photo.jpg") = "site_photo.jpg".
Proof.
  split; [reflexivity|]. apply X15_basename_last_component. reflexivity.
Defined.

Lemma X16_witness :
  no_slash "photo.jpg" = true /\ "photo.jpg" <> "." /\ str_contains "." "photo.jpg" = true /\
  file_path "site.com" ("/a" ++ "/" ++ "photo.jpg") = file_path "site.com" ("/b" ++ "/" ++ "photo.jpg").
Proof.
  split; [reflexivity|]. split; [discriminate|]. split; [reflexivity|].
  apply X16_file_path_drops_directories; [reflexivity|discriminate|reflexivity].
Defined.
